(** * Cluster membership of an AresDB node: [distributed/membership.go]

    A shallow embedding of [membershipManagerImpl] (its [Connect],
    [Disconnect] and [initZKConnection] methods) together with the
    properties of the membership life cycle that the design document
    states about them.

    The manager talks to four collaborators whose code lives outside
    [membership.go]: the ZooKeeper client ([zk.Connect], [Conn.Create],
    [Conn.Close]), the operating system ([os.Hostname]), the JSON encoder
    ([json.Marshal]) and the schema fetch job ([FetchApplySchema], [Run],
    [Stop]).  Their answers are the fields of an environment [Env]; every
    call the manager makes is appended to a log of [Event]s, so that
    ordering properties are statements about that log. *)

From Stdlib Require Import ZArith List String Ascii Bool Arith Lia.
From Stdlib Require Import Strings.Byte DecimalString DecimalZ.
Import ListNotations.

Local Open Scope string_scope.
Local Open Scope Z_scope.

(** ** Go values used by the manager *)

(** Go's [error] interface values.  [ErrInvalidInstanceName] is the package
    variable returned at membership.go:69; every other error is produced by
    a collaborator and carried through unchanged. *)
Inductive error : Type :=
| ErrInvalidInstanceName
| CollaboratorError (msg : string).

(** The fields of [common.AresServerConfig] that the manager reads. *)
Module common.
Record ZKConfig := { ZKs : string; TimeoutSeconds : Z }.
Record ClientsConfig := { ZK : ZKConfig }.
Record ClusterConfig := { ClusterName : string; InstanceName : string }.
Record AresServerConfig :=
  { Port : Z; Cluster : ClusterConfig; Clients : ClientsConfig }.
End common.

(** The [Instance] struct, with the fields the literal at
    membership.go:78-82 fills: two strings and a Go [int]. *)
Record Instance := { Name : string; Host : string; Port : Z }.

(** A [*zk.Conn] is a pointer; distinct sessions are distinct handles and a
    nil pointer is [None]. *)
Definition Conn := nat.
Definition MetaStore := nat.

(** [metastore.NewTableSchameValidator()] builds a fresh validator. *)
Inductive TableSchemaValidator := NewTableSchameValidator.

(** What [NewSchemaFetchJob] is given at membership.go:99. *)
Record SchemaFetchJob :=
  { jobMetaStore : MetaStore;
    jobValidator : TableSchemaValidator;
    jobClusterName : string;
    jobZkc : option Conn }.

Definition NewSchemaFetchJob (ms : MetaStore) (v : TableSchemaValidator)
    (clusterName : string) (c : option Conn) : SchemaFetchJob :=
  {| jobMetaStore := ms; jobValidator := v;
     jobClusterName := clusterName; jobZkc := c |}.

(** *** Constants of the ZooKeeper client *)

Module zk.
Record ACL := { Perms : Z; Scheme : string; ID : string }.

Definition FlagEphemeral : Z := 1.
Definition FlagSequence : Z := 2.

Definition PermRead : Z := Z.shiftl 1 0.
Definition PermWrite : Z := Z.shiftl 1 1.
Definition PermCreate : Z := Z.shiftl 1 2.
Definition PermDelete : Z := Z.shiftl 1 3.
Definition PermAdmin : Z := Z.shiftl 1 4.
Definition PermAll : Z := 31.

Definition WorldACL (perms : Z) : list ACL :=
  [ {| Perms := perms; Scheme := "world"; ID := "anyone" |} ].
End zk.

(** *** [time.Duration] arithmetic: signed 64-bit nanoseconds *)

Definition wrap64 (z : Z) : Z := (z + 2 ^ 63) mod 2 ^ 64 - 2 ^ 63.
Definition Second : Z := 1000000000.
Definition Duration_mul (a b : Z) : Z := wrap64 (a * b).

(** *** [strings.Split] with a one-byte separator

    The result is never empty: a string without the separator is returned
    whole, the empty string included. *)

Fixpoint strings_Split (s : string) (sep : ascii) : list string :=
  match s with
  | EmptyString => [EmptyString]
  | String c rest =>
      if Ascii.eqb c sep then EmptyString :: strings_Split rest sep
      else match strings_Split rest sep with
           | [] => [String c EmptyString]
           | w :: ws => String c w :: ws
           end
  end.

(** [fmt.Sprintf] of the node path at membership.go:92: the two names
    substituted for the two %s verbs. *)
Definition instancePath (clusterName instanceName : string) : string :=
  "/ares_controller/" ++ clusterName ++ "/instances/" ++ instanceName.

(** ** The manager and the log of its calls *)

Record membershipManagerImpl :=
  { cfg : common.AresServerConfig;
    metaStore : MetaStore;
    zkc : option Conn;
    schemaFetchJob : option SchemaFetchJob }.

Definition NewMembershipManager (c : common.AresServerConfig) (ms : MetaStore)
  : membershipManagerImpl :=
  {| cfg := c; metaStore := ms; zkc := None; schemaFetchJob := None |}.

(** The pointer-receiver methods the manager invokes. *)
Inductive Method := MCreate | MClose | MStop.

(** One entry per call that leaves the manager, with the arguments passed
    and the answer received.  [EvGoRun] is the [go] statement that hands
    [Run] to a new goroutine; [EvReport] is the background loop reporting a
    failed iteration; [EvNilDereference m] is method [m] entered with a nil
    receiver and panicking on it. *)
Inductive Event : Type :=
| EvZkConnect (servers : list string) (timeout : Z)
              (conn : option Conn) (err : option error)
| EvHostname (host : string) (err : option error)
| EvMarshal (v : Instance) (data : list byte) (err : option error)
| EvCreate (recv : option Conn) (path : string) (data : list byte)
           (flags : Z) (acl : list zk.ACL) (err : option error)
| EvFetchApplySchema (job : SchemaFetchJob) (bootstrap : bool)
                     (err : option error)
| EvGoRun (job : SchemaFetchJob)
| EvClose (recv : option Conn)
| EvStop (recv : option SchemaFetchJob)
| EvReport (err : error)
| EvNilDereference (m : Method).

(** The collaborators.  An answer may depend on the moment of the call (the
    number of calls made so far), so that the same call can succeed once and
    fail later.  A method invoked on a live handle returns; what it does on
    a nil receiver is decided by its body, which is not part of
    membership.go: [nil_receiver_returns m = false] means it panics. *)
Record Env :=
  { zk_Connect : nat -> list string -> Z -> option Conn * option error;
    os_Hostname : nat -> string * option error;
    json_Marshal : Instance -> list byte * option error;
    zk_Create : nat -> option Conn -> string -> list byte -> Z ->
                list zk.ACL -> string * option error;
    FetchApplySchema : nat -> SchemaFetchJob -> bool -> option error;
    nil_receiver_returns : Method -> bool }.

Record World := { mm : membershipManagerImpl; log : list Event }.

(** ** A small monad for Go method bodies: state, log and panics *)

Inductive Result (A : Type) : Type :=
| Returned (a : A)
| Panicked.
Arguments Returned {A} a.
Arguments Panicked {A}.

Definition Go (A : Type) : Type := World -> Result A * World.

Definition ret {A} (a : A) : Go A := fun w => (Returned a, w).

Definition bind {A B} (m : Go A) (k : A -> Go B) : Go B :=
  fun w => match m w with
           | (Returned a, w') => k a w'
           | (Panicked, w') => (Panicked, w')
           end.

Declare Scope go_scope.
Delimit Scope go_scope with go.
Notation "x <- m ;; k" := (bind m (fun x => k))
  (at level 61, m at next level, right associativity) : go_scope.
Notation "' p <- m ;; k" := (bind m (fun x => let p := x in k))
  (at level 61, p pattern, m at next level, right associativity) : go_scope.
Notation "m ;; k" := (bind m (fun _ => k))
  (at level 61, right associativity) : go_scope.
(** [if err != nil { return }] with the named result [err]. *)
Notation "'check' err ;; k" :=
  (match err with Some _ => ret err | None => k end)
  (at level 61, err at next level, right associativity) : go_scope.

Definition panic {A} : Go A := fun w => (Panicked, w).
Definition self : Go membershipManagerImpl := fun w => (Returned (mm w), w).
Definition now : Go nat := fun w => (Returned (List.length (log w)), w).
Definition emit (e : Event) : Go unit :=
  fun w => (Returned tt, {| mm := mm w; log := (log w ++ [e])%list |}).
Definition set_zkc (c : option Conn) : Go unit :=
  fun w => (Returned tt,
            {| mm := {| cfg := cfg (mm w); metaStore := metaStore (mm w);
                        zkc := c; schemaFetchJob := schemaFetchJob (mm w) |};
               log := log w |}).
Definition set_schemaFetchJob (j : option SchemaFetchJob) : Go unit :=
  fun w => (Returned tt,
            {| mm := {| cfg := cfg (mm w); metaStore := metaStore (mm w);
                        zkc := zkc (mm w); schemaFetchJob := j |};
               log := log w |}).

(** Entering method [m] through [recv]: a nil receiver either is tolerated
    by the callee or makes it panic before it answers. *)
Definition enter {H : Type} (env : Env) (m : Method) (recv : option H)
  : Go unit :=
  match recv with
  | Some _ => ret tt
  | None => if nil_receiver_returns env m then ret tt
            else bind (emit (EvNilDereference m)) (fun _ => panic)
  end.

Section Manager.
Variable env : Env.
Local Open Scope go_scope.

(** *** Calls to the collaborators *)

Definition call_zk_Connect (servers : list string) (timeout : Z)
  : Go (option Conn * option error) :=
  t <- now ;;
  let r := zk_Connect env t servers timeout in
  emit (EvZkConnect servers timeout (fst r) (snd r)) ;;
  ret r.

Definition call_os_Hostname : Go (string * option error) :=
  t <- now ;;
  let r := os_Hostname env t in
  emit (EvHostname (fst r) (snd r)) ;;
  ret r.

Definition call_json_Marshal (v : Instance)
  : Go (list byte * option error) :=
  let r := json_Marshal env v in
  emit (EvMarshal v (fst r) (snd r)) ;;
  ret r.

Definition call_Create (recv : option Conn) (path : string)
    (data : list byte) (flags : Z) (acl : list zk.ACL)
  : Go (string * option error) :=
  enter env MCreate recv ;;
  t <- now ;;
  let r := zk_Create env t recv path data flags acl in
  emit (EvCreate recv path data flags acl (snd r)) ;;
  ret r.

Definition call_FetchApplySchema (j : SchemaFetchJob) (bootstrap : bool)
  : Go (option error) :=
  t <- now ;;
  let r := FetchApplySchema env t j bootstrap in
  emit (EvFetchApplySchema j bootstrap r) ;;
  ret r.

Definition go_Run (j : SchemaFetchJob) : Go unit := emit (EvGoRun j).

Definition call_Close (recv : option Conn) : Go unit :=
  enter env MClose recv ;; emit (EvClose recv).

Definition call_Stop (recv : option SchemaFetchJob) : Go unit :=
  enter env MStop recv ;; emit (EvStop recv).

(** *** membership.go:114-119 *)
Definition initZKConnection : Go (option error) :=
  m <- self ;;
  let zksStr := common.ZKs (common.ZK (common.Clients (cfg m))) in
  let zks := strings_Split zksStr "," in
  '(c, err) <- call_zk_Connect zks
                 (Duration_mul
                    (common.TimeoutSeconds (common.ZK (common.Clients (cfg m))))
                    Second) ;;
  set_zkc c ;;
  ret err.

(** *** membership.go:54-106 *)
Definition Connect : Go (option error) :=
  m <- self ;;
  err <- (match zkc m with
          | None => initZKConnection
          | Some _ => ret None
          end) ;;
  check err ;;
  m <- self ;;
  let instanceName := common.InstanceName (common.Cluster (cfg m)) in
  if String.eqb instanceName EmptyString
  then ret (Some ErrInvalidInstanceName) else
  '(hostName, err) <- call_os_Hostname ;;
  check err ;;
  let serverPort := common.Port (cfg m) in
  let instance :=
    {| Name := instanceName; Host := hostName; Port := serverPort |} in
  let clusterName := common.ClusterName (common.Cluster (cfg m)) in
  '(instanceBytes, err) <- call_json_Marshal instance ;;
  check err ;;
  '(_, err) <- call_Create (zkc m) (instancePath clusterName instanceName)
                 instanceBytes zk.FlagEphemeral (zk.WorldACL zk.PermAll) ;;
  check err ;;
  let j := NewSchemaFetchJob (metaStore m) NewTableSchameValidator
             clusterName (zkc m) in
  set_schemaFetchJob (Some j) ;;
  err <- call_FetchApplySchema j true ;;
  check err ;;
  go_Run j ;;
  ret None.

(** *** membership.go:108-112 *)
Definition Disconnect : Go unit :=
  m <- self ;;
  call_Close (zkc m) ;;
  call_Stop (schemaFetchJob m) ;;
  ret tt.

(** *** Sequences of life-cycle calls on one manager

    The caller may recover from a panic and go on using the manager, so
    a sequence continues from whatever state a call leaves behind. *)

Inductive Call := CallConnect | CallDisconnect.

Definition perform (c : Call) (w : World) : World :=
  match c with
  | CallConnect => snd (Connect w)
  | CallDisconnect => snd (Disconnect w)
  end.

Definition lifecycle (calls : list Call) (w : World) : World :=
  fold_left (fun w c => perform c w) calls w.

(** *** The background loop *)

(** Modelled from the spec: [SchemaFetchJob.Run] is declared outside
    membership.go.  Section 4.2: it loops indefinitely, invoking
    [FetchApplySchema(false)] on a fixed interval, until [Stop] is invoked;
    a failed iteration is reported and the loop continues to the next
    interval.  The loop is driven by what it waits for: the next tick of
    the interval or the stop signal. *)
Inductive Signal := Tick | StopRequested.
Inductive LoopState := Looping | Exited.

(** Modelled from the spec: one turn of the loop of [Run], section 4.2. *)
Definition Run_iteration (j : SchemaFetchJob) (s : Signal) : Go LoopState :=
  match s with
  | StopRequested => ret Exited
  | Tick =>
      err <- call_FetchApplySchema j false ;;
      match err with
      | Some e => emit (EvReport e) ;; ret Looping
      | None => ret Looping
      end
  end.

(** Modelled from the spec: [Run] over the signals that arrive, section
    4.2; with no signal left the loop is still waiting. *)
Fixpoint Run (j : SchemaFetchJob) (signals : list Signal) : Go LoopState :=
  match signals with
  | [] => ret Looping
  | s :: rest =>
      st <- Run_iteration j s ;;
      match st with
      | Exited => ret Exited
      | Looping => Run j rest
      end
  end.

End Manager.

(** ** Reading the log *)

(** The events appended between two worlds. *)
Definition emitted (w w' : World) : list Event :=
  skipn (List.length (log w)) (log w').

(** The error a logged call answered with. *)
Definition event_error (e : Event) : option error :=
  match e with
  | EvZkConnect _ _ _ err => err
  | EvHostname _ err => err
  | EvMarshal _ _ err => err
  | EvCreate _ _ _ _ _ err => err
  | EvFetchApplySchema _ _ err => err
  | _ => None
  end.

(** Calls that reach the coordination service. *)
Definition is_coordination_io (e : Event) : bool :=
  match e with
  | EvZkConnect _ _ _ _ | EvCreate _ _ _ _ _ _ | EvClose _ => true
  | _ => false
  end.

Definition is_session_open (e : Event) : bool :=
  match e with
  | EvZkConnect _ _ (Some _) _ => true
  | _ => false
  end.

Definition is_zk_Connect (e : Event) : bool :=
  match e with
  | EvZkConnect _ _ _ _ => true
  | _ => false
  end.

Definition is_Create (e : Event) : bool :=
  match e with
  | EvCreate _ _ _ _ _ _ => true
  | _ => false
  end.

Definition is_GoRun (e : Event) : bool :=
  match e with
  | EvGoRun _ => true
  | _ => false
  end.

Definition is_teardown (e : Event) : bool :=
  match e with
  | EvClose _ | EvStop _ => true
  | _ => false
  end.

(** Every node-create call in [evs] goes through the handle [c]. *)
Definition creates_through (c : option Conn) (evs : list Event) : Prop :=
  Forall (fun e => match e with
                   | EvCreate recv _ _ _ _ _ => recv = c
                   | _ => True
                   end) evs.

Definition is_looped_fetch (e : Event) : bool :=
  match e with
  | EvFetchApplySchema _ false _ => true
  | _ => false
  end.

Definition count (p : Event -> bool) (evs : list Event) : nat :=
  List.length (filter p evs).

(** How many sessions the manager may still open: none once it holds a
    handle. *)
Definition may_open (w : World) : nat :=
  match zkc (mm w) with Some _ => 0 | None => 1 end.

(** What one looped iteration appends to the log when the fetch answers
    [answer]. *)
Definition iteration_events (j : SchemaFetchJob) (answer : option error)
  : list Event :=
  EvFetchApplySchema j false answer
  :: match answer with Some e => [EvReport e] | None => [] end.

(** ** The payload format *)

(** Modelled from the spec: [json.Marshal] belongs to Go's standard library.
    Section 6 fixes the payload as the JSON object with the fields Name
    (string), Host (string) and Port (int), and section 8 shows one for
    n1, h1 and 8080.  [json.Marshal] below writes that object, escaping
    string bytes the way a JSON string requires; [json.Unmarshal] reads it
    back.  The manager itself only sees [json_Marshal] of its
    environment. *)
Module json.
Local Open Scope char_scope.

(** The double quote, byte 34. *)
Definition dquote : ascii := ascii_of_nat 34.
Definition dq : string := String dquote EmptyString.

Definition hex_digit (n : nat) : ascii :=
  match n with
  | 0 => "0" | 1 => "1" | 2 => "2" | 3 => "3" | 4 => "4" | 5 => "5"
  | 6 => "6" | 7 => "7" | 8 => "8" | 9 => "9" | 10 => "a" | 11 => "b"
  | 12 => "c" | 13 => "d" | 14 => "e" | _ => "f"
  end%nat.

Definition hex_value (c : ascii) : option nat :=
  let n := nat_of_ascii c in
  if ((48 <=? n) && (n <=? 57))%nat then Some (n - 48)%nat
  else if ((97 <=? n) && (n <=? 102))%nat then Some (n - 87)%nat
  else if ((65 <=? n) && (n <=? 70))%nat then Some (n - 55)%nat
  else None.

(** One byte of a string value, as written between the quotes. *)
Definition escape_byte (c : ascii) : string :=
  let n := nat_of_ascii c in
  if Ascii.eqb c dquote then String "\" dq
  else if Ascii.eqb c "\" then String "\" (String "\" EmptyString)
  else if (n =? 10)%nat then String "\" (String "n" EmptyString)
  else if (n =? 13)%nat then String "\" (String "r" EmptyString)
  else if (n =? 9)%nat then String "\" (String "t" EmptyString)
  else if ((n <? 32) || Ascii.eqb c "<" || Ascii.eqb c ">"
           || Ascii.eqb c "&")%nat%bool
       then String "\" (String "u" (String "0" (String "0"
              (String (hex_digit (n / 16)) (String (hex_digit (n mod 16))
                 EmptyString)))))
  else String c EmptyString.

Fixpoint escape (s : string) : string :=
  match s with
  | EmptyString => EmptyString
  | String c rest => (escape_byte c ++ escape rest)%string
  end.

Definition quote (s : string) : string :=
  (dq ++ escape s ++ dq)%string.

(** Go's [int] in decimal. *)
Definition format_int (z : Z) : string :=
  DecimalString.NilZero.string_of_int (Z.to_int z).

Definition Marshal (v : Instance) : string :=
  ("{" ++ dq ++ "Name" ++ dq ++ ":" ++ quote (Name v)
     ++ "," ++ dq ++ "Host" ++ dq ++ ":" ++ quote (Host v)
     ++ "," ++ dq ++ "Port" ++ dq ++ ":" ++ format_int (Port v)
     ++ "}")%string.

(** *** Reading the object back *)

(** The characters of a string value up to its closing quote, and what
    follows that quote. *)
Fixpoint read_chars (s : string) : option (string * string) :=
  match s with
  | EmptyString => None
  | String c rest =>
      if Ascii.eqb c dquote then Some (EmptyString, rest)
      else if Ascii.eqb c "\" then
        match rest with
        | String e rest1 =>
            if Ascii.eqb e "u" then
              match rest1 with
              | String h1 (String h2 (String h3 (String h4 rest2))) =>
                  match hex_value h1, hex_value h2,
                        hex_value h3, hex_value h4 with
                  | Some 0%nat, Some 0%nat, Some a, Some b =>
                      if (a <? 8)%nat
                      then match read_chars rest2 with
                           | None => None
                           | Some (v, r) =>
                               Some (String (ascii_of_nat (16 * a + b)) v, r)
                           end
                      else None
                  | _, _, _, _ => None
                  end
              | _ => None
              end
            else
              let b :=
                if Ascii.eqb e dquote then Some dquote
                else if Ascii.eqb e "\" then Some "\"
                else if Ascii.eqb e "/" then Some "/"
                else if Ascii.eqb e "n" then Some (ascii_of_nat 10)
                else if Ascii.eqb e "r" then Some (ascii_of_nat 13)
                else if Ascii.eqb e "t" then Some (ascii_of_nat 9)
                else if Ascii.eqb e "b" then Some (ascii_of_nat 8)
                else if Ascii.eqb e "f" then Some (ascii_of_nat 12)
                else None in
              match b, read_chars rest1 with
              | Some b, Some (v, r) => Some (String b v, r)
              | _, _ => None
              end
        | EmptyString => None
        end
      else match read_chars rest with
           | None => None
           | Some (v, r) => Some (String c v, r)
           end
  end.

(** [expect lit s] drops the literal [lit] from the front of [s]. *)
Fixpoint expect (lit s : string) : option string :=
  match lit, s with
  | EmptyString, _ => Some s
  | String a lit', String b s' =>
      if Ascii.eqb a b then expect lit' s' else None
  | String _ _, EmptyString => None
  end.

(** [s] without its last character, which must be [c]. *)
Fixpoint strip_last (c : ascii) (s : string) : option string :=
  match s with
  | EmptyString => None
  | String a EmptyString =>
      if Ascii.eqb a c then Some EmptyString else None
  | String a rest =>
      match strip_last c rest with
      | None => None
      | Some r => Some (String a r)
      end
  end.

Definition parse_int (s : string) : option Z :=
  match DecimalString.NilZero.int_of_string s with
  | Some d => Some (Z.of_int d)
  | None => None
  end.

Definition Unmarshal (s : string) : option Instance :=
  match expect ("{" ++ dq ++ "Name" ++ dq ++ ":" ++ dq) s with
  | None => None
  | Some s1 =>
  match read_chars s1 with
  | None => None
  | Some (name, s2) =>
  match expect ("," ++ dq ++ "Host" ++ dq ++ ":" ++ dq) s2 with
  | None => None
  | Some s3 =>
  match read_chars s3 with
  | None => None
  | Some (host, s4) =>
  match expect ("," ++ dq ++ "Port" ++ dq ++ ":") s4 with
  | None => None
  | Some s5 =>
  match strip_last "}" s5 with
  | None => None
  | Some digits =>
  match parse_int digits with
  | None => None
  | Some port => Some {| Name := name; Host := host; Port := port |}
  end end end end end end end.

End json.

(** ** Concrete collaborators *)

Definition demo_cfg (instanceName : string) : common.AresServerConfig :=
  {| common.Port := 8080;
     common.Cluster := {| common.ClusterName := "c1";
                          common.InstanceName := instanceName |};
     common.Clients :=
       {| common.ZK := {| common.ZKs := "zk1:2181,zk2:2181";
                          common.TimeoutSeconds := 10 |} |} |}.

(** A world in which every collaborator succeeds, except that the schema
    fetch answers as [fetch] says and [zk.Connect] as [connect] says. *)
Definition demo_env (connect : option Conn * option error)
    (fetch : nat -> option error) : Env :=
  {| zk_Connect := fun _ _ _ => connect;
     os_Hostname := fun _ => ("h1", None);
     json_Marshal := fun v => (list_byte_of_string (json.Marshal v), None);
     zk_Create := fun _ _ path _ _ _ => (path, None);
     FetchApplySchema := fun t _ _ => fetch t;
     nil_receiver_returns := fun _ => false |}.

Definition good_env : Env := demo_env (Some 7%nat, None) (fun _ => None).

Definition fresh (instanceName : string) : World :=
  {| mm := NewMembershipManager (demo_cfg instanceName) 0%nat; log := [] |}.

Definition json_decode (data : list byte) : option Instance :=
  json.Unmarshal (string_of_list_byte data).

(** The schema store is down: every fetch fails. *)
Definition schema_store_down : error := CollaboratorError "schema store down".
Definition failing_fetch_env : Env :=
  demo_env (Some 7%nat, None) (fun _ => Some schema_store_down).

(** The ensemble cannot be reached: [zk.Connect] answers an error and no
    handle. *)
Definition no_servers : error := CollaboratorError "zk: no servers".
Definition unreachable_env : Env :=
  demo_env (None, Some no_servers) (fun _ => None).

(** Every second fetch fails. *)
Definition flaky_fetch_env : Env :=
  demo_env (Some 7%nat, None)
    (fun t => if Nat.even t then Some schema_store_down else None).

(** The world after a successful Connect of instance n1, after a Connect
    that could not reach the ensemble, and after one whose bootstrap fetch
    failed. *)
Definition connected : World := snd (Connect good_env (fresh "n1")).
Definition never_connected : World := snd (Connect unreachable_env (fresh "n1")).
Definition half_connected : World := snd (Connect failing_fetch_env (fresh "n1")).

Definition demo_job : SchemaFetchJob :=
  NewSchemaFetchJob 0%nat NewTableSchameValidator "c1" (Some 7%nat).

(** The payload section 8 expects for instance n1 on host h1, port 8080. *)
Definition quoted (s : string) : string := (json.dq ++ s ++ json.dq)%string.
Definition n1_payload : list byte :=
  list_byte_of_string
    ("{" ++ quoted "Name" ++ ":" ++ quoted "n1" ++ ","
         ++ quoted "Host" ++ ":" ++ quoted "h1" ++ ","
         ++ quoted "Port" ++ ":8080}")%string.

(** ** Reading the arguments of the calls *)

(** [strings.Join]: the server list written back with its separator. *)
Fixpoint strings_Join (l : list string) (sep : string) : string :=
  match l with
  | [] => EmptyString
  | a :: rest =>
      match rest with
      | [] => a
      | _ :: _ => (a ++ sep ++ strings_Join rest sep)%string
      end
  end.

(** How often byte [c] occurs in [s]. *)
Fixpoint count_byte (c : ascii) (s : string) : nat :=
  match s with
  | EmptyString => 0%nat
  | String a rest =>
      ((if Ascii.eqb a c then 1 else 0) + count_byte c rest)%nat
  end.

(** The place of a call in the body of Connect, by the line it is made on:
    session creation (57), host resolution (72), serialization (86), node
    creation (91), bootstrap fetch (100), start of the loop (104).  Calls
    Connect has no line for are at place 0. *)
Definition stage (e : Event) : nat :=
  match e with
  | EvZkConnect _ _ _ _ => 1
  | EvHostname _ _ => 2
  | EvMarshal _ _ _ => 3
  | EvCreate _ _ _ _ _ _ => 4
  | EvNilDereference MCreate => 4
  | EvFetchApplySchema _ true _ => 5
  | EvGoRun _ => 6
  | _ => 0
  end%nat.

(** [l] is strictly increasing and starts above [lo]. *)
Fixpoint ascending_from (lo : nat) (l : list nat) : bool :=
  match l with
  | [] => true
  | n :: rest => (lo <? n)%nat && ascending_from n rest
  end.

(** A node-create call that answered without error. *)
Definition is_Create_ok (e : Event) : bool :=
  match e with
  | EvCreate _ _ _ _ _ None => true
  | _ => false
  end.

Definition is_Stop (e : Event) : bool :=
  match e with
  | EvStop _ => true
  | _ => false
  end.

(** Every node-create call in [evs] names the path [p]. *)
Definition creates_at (p : string) (evs : list Event) : Prop :=
  Forall (fun e => match e with
                   | EvCreate _ path _ _ _ _ => path = p
                   | _ => True
                   end) evs.

(** The manager with its session handle replaced. *)
Definition with_zkc (m : membershipManagerImpl) (c : option Conn)
  : membershipManagerImpl :=
  {| cfg := cfg m; metaStore := metaStore m; zkc := c;
     schemaFetchJob := schemaFetchJob m |}.

(** The largest and smallest number of seconds whose nanoseconds fit a
    [time.Duration]. *)
Definition max_timeout_seconds : Z := 9223372036.

(** A zk client that answers a nil error only together with a handle. *)
Definition zk_Connect_gives_handle (env : Env) : Prop :=
  forall t servers timeout,
    snd (zk_Connect env t servers timeout) = None ->
    fst (zk_Connect env t servers timeout) <> None.

(** The instance name is taken: the node-create call is refused. *)
Definition node_exists : error := CollaboratorError "zk: node already exists".
Definition name_taken_env : Env :=
  {| zk_Connect := fun _ _ _ => (Some 7%nat, None);
     os_Hostname := fun _ => ("h1", None);
     json_Marshal := fun v => (list_byte_of_string (json.Marshal v), None);
     zk_Create := fun _ _ _ _ _ _ => (EmptyString, Some node_exists);
     FetchApplySchema := fun _ _ _ => None;
     nil_receiver_returns := fun _ => false |}.

(** The world after a Connect whose node-create call was refused, and after
    two successful Connect calls in a row. *)
Definition refused : World := snd (Connect name_taken_env (fresh "n1")).
Definition connected_twice : World := snd (Connect good_env connected).

(** * Properties *)

(** *** Reading back what was written *)

Lemma append_assoc (a b c : string) :
  ((a ++ b) ++ c = a ++ (b ++ c))%string.
Proof.
  induction a as [|x a IH]; simpl; [reflexivity | now rewrite IH].
Qed.








(** ** Reading the log *)

Local Open Scope list_scope.

Lemma emitted_app (w w' : World) (evs : list Event) :
  log w' = log w ++ evs -> emitted w w' = evs.
Proof.
  intros H. unfold emitted. rewrite H.
  rewrite skipn_app, skipn_all, Nat.sub_diag. reflexivity.
Qed.

Lemma emitted_refl (w : World) : emitted w w = [].
Proof. apply emitted_app. now rewrite app_nil_r. Qed.

Lemma count_app (p : Event -> bool) (a b : list Event) :
  count p (a ++ b) = (count p a + count p b)%nat.
Proof. unfold count. now rewrite filter_app, length_app. Qed.

(** ** Unfolding a method body *)

#[local] Arguments instancePath : simpl never.
#[local] Arguments strings_Split : simpl never.
#[local] Arguments Duration_mul : simpl never.
#[local] Arguments String.eqb : simpl never.
#[local] Arguments emitted : simpl never.

Ltac unfold_go :=
  unfold Connect, Disconnect, initZKConnection, call_zk_Connect,
    call_os_Hostname, call_json_Marshal, call_Create, call_FetchApplySchema,
    go_Run, call_Close, call_Stop, enter, bind, ret, self, now, emit,
    set_zkc, set_schemaFetchJob, panic in *;
  cbn in *.

Ltac inv_pair :=
  match goal with
  | H : (_, _) = (_, _) |- _ => inversion H; clear H; subst
  end.

(** Follow every branch of the body under hypothesis [H], innermost
    test first, so that each case is named by a collaborator's answer. *)
Ltac branch_once H :=
  match type of H with
  | context [match ?x with _ => _ end] =>
      lazymatch x with
      | context [match _ with _ => _ end] => fail
      | _ => let E := fresh "E" in destruct x eqn:E; cbn in H
      end
  end.
Ltac branches H := repeat branch_once H.

Ltac name_nonempty :=
  match goal with
  | Hn : String.eqb _ EmptyString = false |- _ => apply String.eqb_neq in Hn
  end.

Ltac tidy_log := cbn [log mm zkc schemaFetchJob cfg metaStore];
                 repeat rewrite <- app_assoc; cbn [app].

(** Replace [emitted w w'] by the events that separate the two logs. *)
Ltac read_emitted :=
  repeat match goal with
    | H : context [emitted ?a ?b] |- _ =>
        first [ rewrite (emitted_refl a) in H
              | erewrite (emitted_app a b) in H by (tidy_log; reflexivity) ]
    | |- context [emitted ?a ?b] =>
        first [ rewrite (emitted_refl a)
              | erewrite (emitted_app a b) by (tidy_log; reflexivity) ]
    end.

(** ** Connect, step by step *)

Section ConnectFacts.
Variable env : Env.

(** The shape of every successful run: the optional session creation,
    then host resolution, serialization, node creation, the bootstrap
    fetch and the start of the loop, each answered without error. *)
Lemma Connect_success_log (w w' : World) :
  Connect env w = (Returned None, w') ->
  let name := common.InstanceName (common.Cluster (cfg (mm w))) in
  let cluster := common.ClusterName (common.Cluster (cfg (mm w))) in
  exists pre host data,
    let inst := {| Name := name; Host := host;
                   Port := common.Port (cfg (mm w)) |} in
    let j := NewSchemaFetchJob (metaStore (mm w)) NewTableSchameValidator
               cluster (zkc (mm w')) in
    log w' = log w ++ pre ++
             [ EvHostname host None;
               EvMarshal inst data None;
               EvCreate (zkc (mm w')) (instancePath cluster name) data
                 zk.FlagEphemeral (zk.WorldACL zk.PermAll) None;
               EvFetchApplySchema j true None;
               EvGoRun j ]
    /\ json_Marshal env inst = (data, None)
    /\ name <> EmptyString
    /\ cfg (mm w') = cfg (mm w)
    /\ schemaFetchJob (mm w') = Some j
    /\ ((pre = [] /\ zkc (mm w) <> None /\ zkc (mm w') = zkc (mm w))
        \/ (zkc (mm w) = None /\
            exists servers timeout,
              pre = [EvZkConnect servers timeout (zkc (mm w')) None])).
Proof.
  destruct w as [[c ms z j0] lg]. intros H. unfold_go.
  branches H; try discriminate; inv_pair; tidy_log; name_nonempty.
  - exists [], s, l. cbn. repeat split; auto.
    left. repeat split; congruence.
  - eexists [_], s, l. cbn. repeat split; auto.
    right. split; eauto.
  - eexists [_], s, l. cbn. repeat split; auto.
    right. split; eauto.
Qed.

(** Whatever happens, a call only appends to the log. *)
Lemma Connect_log_extends (w : World) :
  exists evs, log (snd (Connect env w)) = log w ++ evs.
Proof.
  destruct (Connect env w) as [r w'] eqn:H.
  destruct w as [[c ms z j0] lg]. unfold_go.
  branches H; inv_pair; tidy_log;
    solve [ eexists; reflexivity | exists []; now rewrite app_nil_r ].
Qed.

Lemma Disconnect_log_extends (w : World) :
  exists evs, log (snd (Disconnect env w)) = log w ++ evs.
Proof.
  destruct (Disconnect env w) as [r w'] eqn:H.
  destruct w as [[c ms z j0] lg]. unfold_go.
  branches H; inv_pair; tidy_log; eexists; reflexivity.
Qed.

(** *** The presence node *)

(** C2: a successful Connect issues exactly one node-create call; its
    path is /ares_controller/C/instances/N for the configured cluster
    name C and instance name N, its flags are the ephemeral flag, and its
    ACL is the single entry world:anyone carrying all five permissions. *)
Theorem Connect_creates_one_ephemeral_node (w w' : World) :
  Connect env w = (Returned None, w') ->
  let C := common.ClusterName (common.Cluster (cfg (mm w))) in
  let N := common.InstanceName (common.Cluster (cfg (mm w))) in
  exists data,
    filter is_Create (emitted w w')
    = [ EvCreate (zkc (mm w'))
          ("/ares_controller/" ++ C ++ "/instances/" ++ N)%string data
          zk.FlagEphemeral
          [ {| zk.Perms := zk.PermAll; zk.Scheme := "world";
               zk.ID := "anyone" |} ]
          None ]
    /\ Z.testbit zk.FlagEphemeral 0 = true
    /\ zk.PermAll
       = Z.lor zk.PermRead
           (Z.lor zk.PermWrite
              (Z.lor zk.PermCreate (Z.lor zk.PermDelete zk.PermAdmin))).
Proof.
  intros H C N.
  destruct (Connect_success_log _ _ H)
    as (pre & host & data & Hlog & _ & _ & _ & _ & Hpre).
  exists data. rewrite (emitted_app _ _ _ Hlog).
  split; [| split; reflexivity].
  rewrite filter_app.
  replace (filter is_Create pre) with (@nil Event).
  - reflexivity.
  - destruct Hpre as [(-> & _) | (_ & s & t & ->)]; reflexivity.
Qed.

(** C8: in a successful Connect the node-create call has answered
    without error, and after it the bootstrap fetch-and-apply has
    answered without error, before the loop is handed to its goroutine;
    starting the loop is the last thing Connect does, and nothing that
    precedes the node creation starts a loop or fetches a schema. *)
Theorem Connect_node_then_schema_then_loop (w w' : World) :
  Connect env w = (Returned None, w') ->
  exists before path data j,
    emitted w w'
    = before ++
      [ EvCreate (zkc (mm w')) path data zk.FlagEphemeral
          (zk.WorldACL zk.PermAll) None;
        EvFetchApplySchema j true None;
        EvGoRun j ]
    /\ schemaFetchJob (mm w') = Some j
    /\ count is_GoRun before = 0%nat
    /\ (forall j' b r, ~ In (EvFetchApplySchema j' b r) before)
    /\ count is_GoRun (emitted w w') = 1%nat.
Proof.
  intros H.
  destruct (Connect_success_log _ _ H)
    as (pre & host & data & Hlog & _ & _ & _ & Hjob & Hpre).
  rewrite (emitted_app _ _ _ Hlog).
  eexists (pre ++ [_; _]), _, data, _.
  split; [now rewrite <- app_assoc |].
  split; [exact Hjob |].
  destruct Hpre as [(-> & _) | (_ & s & t & ->)]; cbn;
    (split; [reflexivity | split; [| reflexivity]]);
    intros j' b r Hin; repeat (destruct Hin as [Hin | Hin]; try discriminate);
    exact Hin.
Qed.

(** *** The payload *)


(** *** Failures *)

(** C4: if the bootstrap call FetchApplySchema(true) of a Connect answers
    with an error, Connect returns that very error and never reaches the
    [go] statement that starts the loop. *)
Theorem Connect_bootstrap_failure (w w' : World)
    (r : Result (option error)) (j : SchemaFetchJob) (e : error) :
  Connect env w = (r, w') ->
  In (EvFetchApplySchema j true (Some e)) (emitted w w') ->
  r = Returned (Some e) /\ count is_GoRun (emitted w w') = 0%nat.
Proof.
  intros H Hin.
  destruct w as [[c ms z j0] lg]. unfold_go.
  branches H; inv_pair; read_emitted; cbn in Hin;
    repeat (destruct Hin as [Hin | Hin]; try discriminate);
    try contradiction;
    injection Hin as <- <-; split; reflexivity.
Qed.

(** C1, as the code has it: with an empty instance name Connect never
    issues a node-create call, and the only call it can make at all is the
    creation of the session.  A manager that already holds a session
    handle returns ErrInvalidInstanceName and leaves the world as it was.
    A manager that holds none first calls [zk.Connect] and stores the
    handle it answers; Connect then returns the connection error if there
    is one, and ErrInvalidInstanceName otherwise. *)
Theorem Connect_empty_instance_name (w w' : World)
    (r : Result (option error)) :
  common.InstanceName (common.Cluster (cfg (mm w))) = EmptyString ->
  Connect env w = (r, w') ->
  count is_Create (emitted w w') = 0%nat
  /\ match zkc (mm w) with
     | Some _ =>
         r = Returned (Some ErrInvalidInstanceName)
         /\ w' = w /\ emitted w w' = []
     | None =>
         let servers :=
           strings_Split
             (common.ZKs (common.ZK (common.Clients (cfg (mm w))))) "," in
         let timeout :=
           Duration_mul
             (common.TimeoutSeconds (common.ZK (common.Clients (cfg (mm w)))))
             Second in
         let answer :=
           zk_Connect env (List.length (log w)) servers timeout in
         emitted w w'
         = [EvZkConnect servers timeout (fst answer) (snd answer)]
         /\ zkc (mm w') = fst answer
         /\ r = Returned (match snd answer with
                          | Some e => Some e
                          | None => Some ErrInvalidInstanceName
                          end)
     end.
Proof.
  intros Hname H.
  destruct w as [[c ms z j0] lg]. unfold_go.
  branches H;
    try (match goal with
         | E : String.eqb _ _ = false |- _ =>
             rewrite Hname in E; discriminate E
         end);
    inv_pair; read_emitted; cbn;
    repeat split; try reflexivity;
    match goal with
    | E : zk_Connect _ _ _ _ = _ |- _ => rewrite E; reflexivity
    end.
Qed.

(** C7: when Connect returns an error although the session was there
    (held before the call, or created by it without error), the handle is
    still the one of that session, no Close and no Stop was issued, and
    the error is that of the first step that failed: either the empty
    name, with every call made so far answered without error, or the last
    call made (host resolution, serialization, node creation or bootstrap
    fetch), every earlier one having answered without error.  Nothing is
    undone: a node-create call that succeeded is followed by the failing
    bootstrap fetch only. *)
Theorem Connect_failure_keeps_session (w w' : World) (c : Conn) (e : error) :
  Connect env w = (Returned (Some e), w') ->
  (zkc (mm w) = Some c
   \/ (zkc (mm w) = None
       /\ zk_Connect env (List.length (log w))
            (strings_Split
               (common.ZKs (common.ZK (common.Clients (cfg (mm w))))) ",")
            (Duration_mul
               (common.TimeoutSeconds
                  (common.ZK (common.Clients (cfg (mm w)))))
               Second)
          = (Some c, None))) ->
  zkc (mm w') = Some c
  /\ count is_teardown (emitted w w') = 0%nat
  /\ exists done,
       Forall (fun ev => event_error ev = None) done
       /\ ((emitted w w' = done /\ e = ErrInvalidInstanceName
            /\ common.InstanceName (common.Cluster (cfg (mm w)))
               = EmptyString)
           \/ exists failed,
                emitted w w' = done ++ [failed]
                /\ event_error failed = Some e
                /\ is_zk_Connect failed = false).
Proof.
  intros H Hsession.
  destruct w as [[cf ms z j0] lg]. unfold_go.
  destruct Hsession as [-> | [-> Hc]]; cbn in H;
    [| rewrite Hc in H; cbn in H];
    branches H; try discriminate; inv_pair; read_emitted;
    (split; [reflexivity | split; [reflexivity |]]);
    try (match goal with
         | E : String.eqb _ _ = true |- exists d, _ /\ (?l = d /\ _ \/ _) =>
             apply String.eqb_eq in E; exists l; split;
             [ repeat constructor
             | left; split; [reflexivity | split; [reflexivity | exact E]] ]
         end);
    try (match goal with
         | |- exists d, _ /\ (?l = d /\ _ \/ _) =>
             exists (removelast l); split;
             [ cbn; repeat constructor
             | right; eexists; cbn; repeat split; reflexivity ]
         end).
Qed.

End ConnectFacts.

(** ** Sessions over the life of a manager *)

Section LifecycleFacts.
Variable env : Env.

Lemma session_open_le_zk_Connect (evs : list Event) :
  count is_zk_Connect evs = 0%nat -> count is_session_open evs = 0%nat.
Proof.
  unfold count. induction evs as [|e evs IH]; cbn; [reflexivity |].
  destruct e; cbn; try exact IH; discriminate.
Qed.

Lemma emitted_trans (w w1 w2 : World) (a b : list Event) :
  log w1 = log w ++ a -> log w2 = log w1 ++ b ->
  emitted w w2 = emitted w w1 ++ emitted w1 w2.
Proof.
  intros Ha Hb.
  rewrite (emitted_app _ _ _ Ha), (emitted_app _ _ _ Hb).
  apply emitted_app. now rewrite Hb, Ha, app_assoc.
Qed.

(** What one Connect does to the session handle. *)
Lemma Connect_session_handle (w : World) :
  match zkc (mm w) with
  | Some c =>
      zkc (mm (snd (Connect env w))) = Some c
      /\ count is_zk_Connect (emitted w (snd (Connect env w))) = 0%nat
      /\ creates_through (Some c) (emitted w (snd (Connect env w)))
  | None =>
      exists servers timeout err rest,
        emitted w (snd (Connect env w))
        = EvZkConnect servers timeout (zkc (mm (snd (Connect env w)))) err
            :: rest
        /\ count is_zk_Connect rest = 0%nat
  end.
Proof.
  destruct (Connect env w) as [r w'] eqn:H.
  destruct w as [[c ms z j0] lg]. unfold_go.
  branches H; inv_pair; read_emitted; cbn;
    solve [ split; [| split]; [reflexivity | reflexivity |];
            repeat constructor
          | do 4 eexists; split; reflexivity ].
Qed.

Lemma Disconnect_session_handle (w : World) :
  zkc (mm (snd (Disconnect env w))) = zkc (mm w)
  /\ count is_zk_Connect (emitted w (snd (Disconnect env w))) = 0%nat.
Proof.
  destruct (Disconnect env w) as [r w'] eqn:H.
  destruct w as [[c ms z j0] lg]. unfold_go.
  branches H; inv_pair; read_emitted; cbn; split; reflexivity.
Qed.

Lemma perform_log_extends (c : Call) (w : World) :
  exists evs, log (perform env c w) = log w ++ evs.
Proof.
  destruct c; [apply Connect_log_extends | apply Disconnect_log_extends].
Qed.

Lemma lifecycle_log_extends (calls : list Call) (w : World) :
  exists evs, log (lifecycle env calls w) = log w ++ evs.
Proof.
  revert w. induction calls as [|c calls IH]; intros w; cbn.
  - exists []. now rewrite app_nil_r.
  - destruct (perform_log_extends c w) as [a Ha].
    destruct (IH (perform env c w)) as [b Hb].
    exists (a ++ b). unfold lifecycle in Hb. now rewrite Hb, Ha, app_assoc.
Qed.

(** The number of sessions a call opens, plus the number the manager may
    still open afterwards, never exceeds what it could open before. *)
Lemma perform_session_budget (c : Call) (w : World) :
  (count is_session_open (emitted w (perform env c w))
   + may_open (perform env c w) <= may_open w)%nat
  /\ (count is_zk_Connect (emitted w (perform env c w))
      <= may_open w)%nat.
Proof.
  unfold may_open. destruct c; cbn [perform].
  - pose proof (Connect_session_handle w) as H.
    destruct (zkc (mm w)) as [c0|].
    + destruct H as (-> & H0 & _).
      rewrite (session_open_le_zk_Connect _ H0), H0.
      split; reflexivity.
    + destruct H as (s & t & err & rest & -> & H0).
      change (?e :: rest) with ([e] ++ rest).
      rewrite !count_app, (session_open_le_zk_Connect _ H0), H0.
      destruct (zkc (mm (snd (Connect env w)))); cbn; split; lia.
  - destruct (Disconnect_session_handle w) as [-> H0].
    rewrite (session_open_le_zk_Connect _ H0), H0.
    destruct (zkc (mm w)); split; cbn; lia.
Qed.

Lemma lifecycle_session_budget (calls : list Call) (w : World) :
  (count is_session_open (emitted w (lifecycle env calls w))
   + may_open (lifecycle env calls w) <= may_open w)%nat
  /\ (may_open w = 0%nat ->
      count is_zk_Connect (emitted w (lifecycle env calls w)) = 0%nat).
Proof.
  revert w. induction calls as [|c calls IH]; intros w; cbn [lifecycle fold_left].
  - rewrite emitted_refl. cbn. split; [lia | reflexivity].
  - destruct (perform_log_extends c w) as [a Ha].
    destruct (lifecycle_log_extends calls (perform env c w)) as [b Hb].
    destruct (IH (perform env c w)) as [IH1 IH2].
    destruct (perform_session_budget c w) as [P1 P2].
    unfold lifecycle in *.
    rewrite (emitted_trans _ _ _ _ _ Ha Hb), !count_app.
    split; [lia |].
    intros Hw. rewrite IH2 by lia. lia.
Qed.

(** C5: Connect calls [zk.Connect] exactly when the manager holds no
    session handle, as its first step; a handle that is held is kept, no
    session is created and the node-create call goes through that handle.
    Hence over any sequence of Connect and Disconnect calls on one manager
    at most one session is ever opened, and none when the manager started
    with a handle. *)
Theorem manager_never_holds_two_sessions (w : World) (calls : list Call) :
  match zkc (mm w) with
  | Some c =>
      zkc (mm (snd (Connect env w))) = Some c
      /\ count is_zk_Connect (emitted w (snd (Connect env w))) = 0%nat
      /\ creates_through (Some c) (emitted w (snd (Connect env w)))
      /\ zkc (mm (lifecycle env calls w)) = Some c
      /\ count is_zk_Connect (emitted w (lifecycle env calls w)) = 0%nat
  | None =>
      (exists servers timeout err rest,
          emitted w (snd (Connect env w))
          = EvZkConnect servers timeout (zkc (mm (snd (Connect env w)))) err
              :: rest
          /\ count is_zk_Connect rest = 0%nat)
      /\ (count is_session_open (emitted w (lifecycle env calls w)) <= 1)%nat
  end.
Proof.
  pose proof (Connect_session_handle w) as HC.
  destruct (lifecycle_session_budget calls w) as [L1 L2].
  unfold may_open in *.
  destruct (zkc (mm w)) as [c|] eqn:Hz.
  - destruct HC as (HC1 & HC2 & HC3). repeat split; auto.
    destruct (zkc (mm (lifecycle env calls w))) as [c'|] eqn:Hz'; [| lia].
    clear - Hz Hz'. revert w Hz Hz'.
    induction calls as [|k calls IH]; intros w Hz Hz'; cbn in Hz'.
    + congruence.
    + apply (IH (perform env k w)); [| exact Hz'].
      destruct k; cbn [perform].
      * pose proof (Connect_session_handle w) as H. rewrite Hz in H. tauto.
      * destruct (Disconnect_session_handle w) as [-> _]. exact Hz.
  - split; [exact HC | lia].
Qed.

(** *** Disconnect *)

(** C6: after a successful Connect (the client answering a nil error only
    together with a handle) both handles are set, and Disconnect closes
    the session, then stops the task, each exactly once and in that
    order, changes nothing else and returns normally; its result type has
    no error to report. *)
Theorem Disconnect_closes_then_stops (w w1 : World) :
  (forall t servers timeout,
      snd (zk_Connect env t servers timeout) = None ->
      fst (zk_Connect env t servers timeout) <> None) ->
  Connect env w = (Returned None, w1) ->
  exists c j,
    zkc (mm w1) = Some c
    /\ schemaFetchJob (mm w1) = Some j
    /\ Disconnect env w1
       = (Returned tt,
          {| mm := mm w1;
             log := log w1 ++ [EvClose (Some c); EvStop (Some j)] |}).
Proof.
  intros Hzk H.
  destruct w as [[cf ms z j0] lg]. unfold_go.
  branches H; try discriminate; inv_pair; cbn;
    try (match goal with
         | E : zk_Connect _ ?t ?s ?d = (None, None) |- _ =>
             exfalso; apply (Hzk t s d); rewrite E; reflexivity
         end);
    do 2 eexists; repeat split; tidy_log; reflexivity.
Qed.

(** C10: on a manager whose two handles are nil, Disconnect enters Close
    through the nil session handle without any test.  Unless Close
    tolerates a nil receiver it panics there; if Close returns, Disconnect
    enters Stop through the nil task handle, again without any test, and
    panics there unless Stop tolerates a nil receiver.  Disconnect returns
    normally only when both methods tolerate a nil receiver. *)
Theorem Disconnect_is_not_nil_safe (w : World) :
  zkc (mm w) = None ->
  schemaFetchJob (mm w) = None ->
  Disconnect env w
  = if nil_receiver_returns env MClose
    then if nil_receiver_returns env MStop
         then (Returned tt,
               {| mm := mm w; log := log w ++ [EvClose None; EvStop None] |})
         else (Panicked,
               {| mm := mm w;
                  log := log w ++ [EvClose None; EvNilDereference MStop] |})
    else (Panicked,
          {| mm := mm w; log := log w ++ [EvNilDereference MClose] |}).
Proof.
  destruct w as [[cf ms z j0] lg]. cbn. intros -> ->. unfold_go.
  destruct (nil_receiver_returns env MClose); cbn;
    [destruct (nil_receiver_returns env MStop); cbn |];
    tidy_log; reflexivity.
Qed.

End LifecycleFacts.

(** ** The background loop *)

Section RunFacts.
Variable env : Env.
Variable j : SchemaFetchJob.

Lemma Run_iteration_Tick (w : World) :
  Run_iteration env j Tick w
  = (Returned Looping,
     {| mm := mm w;
        log := log w
               ++ iteration_events j
                    (FetchApplySchema env (List.length (log w)) j false) |}).
Proof.
  unfold Run_iteration, iteration_events. unfold_go.
  destruct (FetchApplySchema env (List.length (log w)) j false);
    cbn; tidy_log; reflexivity.
Qed.

Lemma Run_app (a b : list Signal) (w : World) :
  Run env j (a ++ b) w
  = match Run env j a w with
    | (Returned Looping, w1) => Run env j b w1
    | other => other
    end.
Proof.
  revert w. induction a as [|s a IH]; intros w; cbn [Run app].
  - reflexivity.
  - unfold bind. destruct s.
    + rewrite Run_iteration_Tick. apply IH.
    + reflexivity.
Qed.

(** While only ticks arrive the loop is alive whatever the fetches
    answer, and each tick is one looped fetch, reported if it failed. *)
Lemma Run_ticks (ticks : list Signal) (w : World) :
  Forall (fun s => s = Tick) ticks ->
  exists w1 evs,
    Run env j ticks w = (Returned Looping, w1)
    /\ log w1 = log w ++ evs
    /\ mm w1 = mm w
    /\ count is_looped_fetch evs = List.length ticks
    /\ (forall e, In (EvFetchApplySchema j false (Some e)) evs ->
                  In (EvReport e) evs).
Proof.
  intros Hticks. revert w.
  induction Hticks as [|s ticks -> _ IH]; intros w.
  - exists w, []. cbn. rewrite app_nil_r. repeat split; auto.
  - cbn [Run]. unfold bind. rewrite Run_iteration_Tick.
    destruct (IH {| mm := mm w;
                    log := log w
                           ++ iteration_events j
                                (FetchApplySchema env (List.length (log w))
                                   j false) |})
      as (w1 & evs & HR & Hlog & Hmm & Hcount & Hrep).
    cbn [log mm] in *.
    exists w1, (iteration_events j
                  (FetchApplySchema env (List.length (log w)) j false)
                ++ evs).
    rewrite HR, Hlog, <- app_assoc, count_app, Hcount.
    repeat split; auto.
    + unfold iteration_events.
      destruct (FetchApplySchema env (List.length (log w)) j false);
        reflexivity.
    + intros e Hin. apply in_app_or in Hin. apply in_or_app.
      destruct Hin as [Hin | Hin]; [left | right; now apply Hrep].
      unfold iteration_events in *.
      destruct (FetchApplySchema env (List.length (log w)) j false);
        cbn in *; intuition congruence.
Qed.

(** C9: as long as Stop has not been invoked the loop is still looping
    after every tick, whatever the fetches answered; each tick made one
    FetchApplySchema(false) call and each failed one was reported; the
    next tick makes the next call; and the stop signal, when it arrives,
    ends the loop without a further call. *)
Theorem Run_survives_failed_iterations (ticks : list Signal) (w : World) :
  Forall (fun s => s = Tick) ticks ->
  exists w1,
    Run env j ticks w = (Returned Looping, w1)
    /\ count is_looped_fetch (emitted w w1) = List.length ticks
    /\ (forall e, In (EvFetchApplySchema j false (Some e)) (emitted w w1) ->
                  In (EvReport e) (emitted w w1))
    /\ (exists w2,
          Run env j (ticks ++ [Tick]) w = (Returned Looping, w2)
          /\ emitted w1 w2
             = iteration_events j
                 (FetchApplySchema env (List.length (log w1)) j false))
    /\ (forall later,
          Run env j (ticks ++ StopRequested :: later) w
          = (Returned Exited, w1)).
Proof.
  intros Hticks.
  destruct (Run_ticks ticks w Hticks)
    as (w1 & evs & HR & Hlog & _ & Hcount & Hrep).
  exists w1. rewrite (emitted_app _ _ _ Hlog).
  repeat split; auto.
  - eexists. rewrite Run_app, HR. cbn [Run]. unfold bind.
    rewrite Run_iteration_Tick. cbn. split; [reflexivity |].
    now apply emitted_app.
  - intros later. rewrite Run_app, HR. reflexivity.
Qed.

End RunFacts.

(** * The properties at work on concrete collaborators *)

(** Section 8, end to end: cluster c1, instance n1, host h1, port 8080. *)
Example end_to_end_n1 :
  Connect good_env (fresh "n1") = (Returned None, connected)
  /\ emitted (fresh "n1") connected
     = [ EvZkConnect ["zk1:2181"; "zk2:2181"] 10000000000 (Some 7%nat) None;
         EvHostname "h1" None;
         EvMarshal {| Name := "n1"; Host := "h1"; Port := 8080 |}
           n1_payload None;
         EvCreate (Some 7%nat) "/ares_controller/c1/instances/n1" n1_payload
           zk.FlagEphemeral (zk.WorldACL zk.PermAll) None;
         EvFetchApplySchema demo_job true None;
         EvGoRun demo_job ]
  /\ json_decode n1_payload
     = Some {| Name := "n1"; Host := "h1"; Port := 8080 |}.
Proof. repeat split. Qed.

(** Section 8, end to end: an empty instance name creates no node. *)
Example end_to_end_empty_name :
  fst (Connect good_env (fresh EmptyString))
  = Returned (Some ErrInvalidInstanceName)
  /\ count is_Create
       (emitted (fresh EmptyString)
          (snd (Connect good_env (fresh EmptyString)))) = 0%nat.
Proof. split; reflexivity. Qed.

(** Three ticks on a schema store that keeps failing: three fetches, three
    reports, and the loop is still looping. *)
Example three_failed_ticks :
  Run failing_fetch_env demo_job [Tick; Tick; Tick] connected
  = (Returned Looping,
     {| mm := mm connected;
        log := log connected
               ++ [ EvFetchApplySchema demo_job false (Some schema_store_down);
                    EvReport schema_store_down;
                    EvFetchApplySchema demo_job false (Some schema_store_down);
                    EvReport schema_store_down;
                    EvFetchApplySchema demo_job false (Some schema_store_down);
                    EvReport schema_store_down ] |}).
Proof. reflexivity. Qed.

Lemma Connect_creates_one_ephemeral_node_witness :
  Connect good_env (fresh "n1") = (Returned None, connected)
  /\ exists data,
      filter is_Create (emitted (fresh "n1") connected)
      = [ EvCreate (Some 7%nat) "/ares_controller/c1/instances/n1" data 1
            [ {| zk.Perms := 31; zk.Scheme := "world"; zk.ID := "anyone" |} ]
            None ]
      /\ Z.testbit zk.FlagEphemeral 0 = true
      /\ zk.PermAll
         = Z.lor zk.PermRead
             (Z.lor zk.PermWrite
                (Z.lor zk.PermCreate (Z.lor zk.PermDelete zk.PermAdmin))).
Proof.
  split; [reflexivity |].
  exact (Connect_creates_one_ephemeral_node good_env (fresh "n1") connected
           eq_refl).
Defined.


Lemma Connect_bootstrap_failure_witness :
  Connect failing_fetch_env (fresh "n1")
  = (Returned (Some schema_store_down), half_connected)
  /\ In (EvFetchApplySchema demo_job true (Some schema_store_down))
       (emitted (fresh "n1") half_connected)
  /\ Returned (Some schema_store_down) = Returned (Some schema_store_down)
  /\ count is_GoRun (emitted (fresh "n1") half_connected) = 0%nat.
Proof.
  assert (Hin : In (EvFetchApplySchema demo_job true (Some schema_store_down))
                  (emitted (fresh "n1") half_connected)).
  { vm_compute. tauto. }
  split; [reflexivity | split; [exact Hin |]].
  exact (Connect_bootstrap_failure failing_fetch_env (fresh "n1")
           half_connected _ demo_job schema_store_down eq_refl Hin).
Defined.

Lemma Connect_node_then_schema_then_loop_witness :
  Connect good_env (fresh "n1") = (Returned None, connected)
  /\ exists before path data j,
      emitted (fresh "n1") connected
      = before ++
        [ EvCreate (Some 7%nat) path data zk.FlagEphemeral
            (zk.WorldACL zk.PermAll) None;
          EvFetchApplySchema j true None;
          EvGoRun j ]
      /\ schemaFetchJob (mm connected) = Some j
      /\ count is_GoRun before = 0%nat
      /\ (forall j' b r, ~ In (EvFetchApplySchema j' b r) before)
      /\ count is_GoRun (emitted (fresh "n1") connected) = 1%nat.
Proof.
  split; [reflexivity |].
  exact (Connect_node_then_schema_then_loop good_env (fresh "n1") connected
           eq_refl).
Defined.

Lemma Connect_empty_instance_name_witness :
  common.InstanceName (common.Cluster (cfg (mm (fresh EmptyString))))
  = EmptyString
  /\ count is_Create
       (emitted (fresh EmptyString) (snd (Connect good_env (fresh EmptyString))))
     = 0%nat
  /\ emitted (fresh EmptyString) (snd (Connect good_env (fresh EmptyString)))
     = [EvZkConnect ["zk1:2181"; "zk2:2181"] 10000000000 (Some 7%nat) None]
  /\ zkc (mm (snd (Connect good_env (fresh EmptyString)))) = Some 7%nat
  /\ fst (Connect good_env (fresh EmptyString))
     = Returned (Some ErrInvalidInstanceName).
Proof.
  split; [reflexivity |].
  exact (Connect_empty_instance_name good_env (fresh EmptyString)
           (snd (Connect good_env (fresh EmptyString)))
           (fst (Connect good_env (fresh EmptyString))) eq_refl eq_refl).
Defined.

(** C1 as it is written fails on the code.  A manager without a session
    that is given an empty instance name creates the session before it
    looks at the name: the call is coordination-service I/O, and the handle
    is kept.  And when that call fails, Connect returns the connection
    error, not ErrInvalidInstanceName. *)
Lemma Connect_empty_instance_name_counterexample :
  common.InstanceName (common.Cluster (cfg (mm (fresh EmptyString))))
  = EmptyString
  /\ ~ (exists w',
          Connect good_env (fresh EmptyString)
          = (Returned (Some ErrInvalidInstanceName), w')
          /\ count is_coordination_io (emitted (fresh EmptyString) w') = 0%nat)
  /\ ~ (exists w',
          Connect unreachable_env (fresh EmptyString)
          = (Returned (Some ErrInvalidInstanceName), w')).
Proof.
  split; [reflexivity | split].
  - intros (w' & H & Hio).
    vm_compute in H. injection H as <-. vm_compute in Hio. discriminate.
  - intros (w' & H). vm_compute in H. discriminate.
Qed.

Lemma Connect_failure_keeps_session_witness :
  Connect failing_fetch_env (fresh "n1")
  = (Returned (Some schema_store_down), half_connected)
  /\ zkc (mm half_connected) = Some 7%nat
  /\ count is_teardown (emitted (fresh "n1") half_connected) = 0%nat
  /\ exists done,
      Forall (fun ev => event_error ev = None) done
      /\ ((emitted (fresh "n1") half_connected = done
           /\ schema_store_down = ErrInvalidInstanceName
           /\ common.InstanceName (common.Cluster (cfg (mm (fresh "n1"))))
              = EmptyString)
          \/ exists failed,
               emitted (fresh "n1") half_connected = done ++ [failed]
               /\ event_error failed = Some schema_store_down
               /\ is_zk_Connect failed = false).
Proof.
  split; [reflexivity |].
  exact (Connect_failure_keeps_session failing_fetch_env (fresh "n1")
           half_connected 7%nat schema_store_down eq_refl
           (or_intror (conj eq_refl eq_refl))).
Defined.

Lemma Disconnect_closes_then_stops_witness :
  (forall t servers timeout,
      snd (zk_Connect good_env t servers timeout) = None ->
      fst (zk_Connect good_env t servers timeout) <> None)
  /\ Connect good_env (fresh "n1") = (Returned None, connected)
  /\ exists c j,
      zkc (mm connected) = Some c
      /\ schemaFetchJob (mm connected) = Some j
      /\ Disconnect good_env connected
         = (Returned tt,
            {| mm := mm connected;
               log := log connected ++ [EvClose (Some c); EvStop (Some j)] |}).
Proof.
  assert (Hzk : forall t servers timeout,
             snd (zk_Connect good_env t servers timeout) = None ->
             fst (zk_Connect good_env t servers timeout) <> None).
  { intros t servers timeout _. cbn. discriminate. }
  split; [exact Hzk | split; [reflexivity |]].
  exact (Disconnect_closes_then_stops good_env (fresh "n1") connected Hzk
           eq_refl).
Defined.

Lemma Disconnect_is_not_nil_safe_witness :
  Connect unreachable_env (fresh "n1")
  = (Returned (Some no_servers), never_connected)
  /\ zkc (mm never_connected) = None
  /\ schemaFetchJob (mm never_connected) = None
  /\ Disconnect unreachable_env never_connected
     = (Panicked,
        {| mm := mm never_connected;
           log := log never_connected ++ [EvNilDereference MClose] |}).
Proof.
  split; [reflexivity | split; [reflexivity | split; [reflexivity |]]].
  exact (Disconnect_is_not_nil_safe unreachable_env never_connected
           eq_refl eq_refl).
Defined.

Lemma Run_survives_failed_iterations_witness :
  Forall (fun s => s = Tick) [Tick; Tick; Tick]
  /\ exists w1,
      Run flaky_fetch_env demo_job [Tick; Tick; Tick] connected
      = (Returned Looping, w1)
      /\ count is_looped_fetch (emitted connected w1) = 3%nat
      /\ (forall e,
             In (EvFetchApplySchema demo_job false (Some e))
               (emitted connected w1) ->
             In (EvReport e) (emitted connected w1))
      /\ (exists w2,
            Run flaky_fetch_env demo_job ([Tick; Tick; Tick] ++ [Tick])
              connected
            = (Returned Looping, w2)
            /\ emitted w1 w2
               = iteration_events demo_job
                   (FetchApplySchema flaky_fetch_env (List.length (log w1))
                      demo_job false))
      /\ (forall later,
            Run flaky_fetch_env demo_job
              ([Tick; Tick; Tick] ++ StopRequested :: later) connected
            = (Returned Exited, w1)).
Proof.
  assert (Hticks : Forall (fun s => s = Tick) [Tick; Tick; Tick]).
  { repeat constructor. }
  split; [exact Hticks |].
  exact (Run_survives_failed_iterations flaky_fetch_env demo_job
           [Tick; Tick; Tick] connected Hticks).
Defined.

(** * More about the manager *)

(** ** What [initZKConnection] hands to the client *)

Lemma strings_Split_String (c : ascii) (rest : string) (sep : ascii) :
  strings_Split (String c rest) sep
  = if Ascii.eqb c sep then EmptyString :: strings_Split rest sep
    else match strings_Split rest sep with
         | [] => [String c EmptyString]
         | w :: ws => String c w :: ws
         end.
Proof. reflexivity. Qed.

Lemma strings_Split_cons (s : string) (sep : ascii) :
  exists w ws, strings_Split s sep = w :: ws.
Proof.
  induction s as [|c s IH].
  - exists EmptyString, []. reflexivity.
  - rewrite strings_Split_String.
    destruct (Ascii.eqb c sep); [eauto |].
    destruct IH as (w & ws & ->). eauto.
Qed.

Lemma strings_Join_Split (s : string) (sep : ascii) :
  strings_Join (strings_Split s sep) (String sep EmptyString) = s.
Proof.
  induction s as [|c s IH].
  - reflexivity.
  - rewrite strings_Split_String.
    destruct (strings_Split_cons s sep) as (w & ws & E).
    rewrite E in *.
    destruct (Ascii.eqb_spec c sep) as [-> | Hne].
    + cbn [strings_Join] in *. rewrite IH. reflexivity.
    + cbn [strings_Join] in *. destruct ws; cbn in *; subst; reflexivity.
Qed.

Lemma strings_Split_pieces (s : string) (sep : ascii) :
  Forall (fun piece => count_byte sep piece = 0%nat) (strings_Split s sep)
  /\ List.length (strings_Split s sep) = S (count_byte sep s).
Proof.
  induction s as [|c s [IH1 IH2]].
  - split; [repeat constructor | reflexivity].
  - rewrite strings_Split_String. cbn [count_byte].
    destruct (strings_Split_cons s sep) as (w & ws & E).
    rewrite E in *. cbn in IH2. inversion IH1; subst.
    destruct (Ascii.eqb c sep) eqn:Ec.
    + split; [constructor; [reflexivity | exact IH1] | cbn; lia].
    + split; [constructor; [cbn; now rewrite Ec | assumption] | cbn; lia].
Qed.

Lemma wrap64_range (z : Z) : - 2 ^ 63 <= wrap64 z < 2 ^ 63.
Proof.
  unfold wrap64.
  pose proof (Z.mod_pos_bound (z + 2 ^ 63) (2 ^ 64) ltac:(lia)). lia.
Qed.

Lemma wrap64_exact (z : Z) : wrap64 z = z <-> - 2 ^ 63 <= z < 2 ^ 63.
Proof.
  split.
  - intros <-. apply wrap64_range.
  - intros H. unfold wrap64. rewrite Z.mod_small; lia.
Qed.

Section SessionArguments.
Variable env : Env.

(** X1: [initZKConnection] makes exactly one call, [zk.Connect], stores the
    handle it answers whether or not it also answers an error, and returns
    that error.  The server list of the call is never empty, has one entry
    more than the configured string has commas, no entry contains a comma,
    and the entries joined by commas are the configured string again. *)
Theorem initZKConnection_server_list (w : World) :
  let zks := common.ZKs (common.ZK (common.Clients (cfg (mm w)))) in
  let servers := strings_Split zks "," in
  let timeout :=
    Duration_mul
      (common.TimeoutSeconds (common.ZK (common.Clients (cfg (mm w)))))
      Second in
  let answer := zk_Connect env (List.length (log w)) servers timeout in
  initZKConnection env w
  = (Returned (snd answer),
     {| mm := with_zkc (mm w) (fst answer);
        log := log w ++ [EvZkConnect servers timeout (fst answer) (snd answer)]
     |})
  /\ servers <> []
  /\ List.length servers = S (count_byte "," zks)
  /\ Forall (fun server => count_byte "," server = 0%nat) servers
  /\ strings_Join servers "," = zks.
Proof.
  cbv zeta. split; [| split; [| split; [| split]]].
  - unfold initZKConnection, call_zk_Connect, bind, now, emit, set_zkc, ret,
      self, with_zkc. cbn.
    destruct (zk_Connect env _ _ _) as [c err]. reflexivity.
  - destruct (strings_Split_cons
                (common.ZKs (common.ZK (common.Clients (cfg (mm w))))) ",")
      as (a & l & ->). discriminate.
  - apply strings_Split_pieces.
  - apply strings_Split_pieces.
  - apply strings_Join_Split.
Qed.

(** X2: the session timeout handed to [zk.Connect] is the configured number
    of seconds times 10^9, reduced to a signed 64-bit number of
    nanoseconds.  It is the exact product precisely when the configured
    seconds lie between -9223372036 and 9223372036; outside that range the
    product wraps around. *)
Theorem initZKConnection_timeout (w : World) :
  let seconds :=
    common.TimeoutSeconds (common.ZK (common.Clients (cfg (mm w)))) in
  exists servers timeout c err,
    emitted w (snd (initZKConnection env w))
    = [EvZkConnect servers timeout c err]
    /\ - 2 ^ 63 <= timeout < 2 ^ 63
    /\ (timeout - seconds * 1000000000) mod 2 ^ 64 = 0
    /\ (timeout = seconds * 1000000000
        <-> - max_timeout_seconds <= seconds <= max_timeout_seconds).
Proof.
  cbv zeta.
  unfold initZKConnection, call_zk_Connect, bind, now, emit, set_zkc, ret,
    self. cbn.
  destruct (zk_Connect env _ _ _) as [c err] eqn:E. cbn.
  do 4 eexists. split; [apply emitted_app; cbn; reflexivity |].
  unfold Duration_mul, Second, max_timeout_seconds.
  split; [apply wrap64_range | split].
  - unfold wrap64.
    set (z := common.TimeoutSeconds _ * 1000000000).
    replace ((z + 2 ^ 63) mod 2 ^ 64 - 2 ^ 63 - z)
      with (- ((z + 2 ^ 63) / 2 ^ 64) * 2 ^ 64)
      by (pose proof (Z.div_mod (z + 2 ^ 63) (2 ^ 64) ltac:(lia)); lia).
    apply Z.mod_mul. lia.
  - rewrite wrap64_exact. lia.
Qed.

End SessionArguments.

(** ** The node path *)

Lemma append_slash_inj (a b r r' : string) :
  count_byte "/" a = 0%nat -> count_byte "/" b = 0%nat ->
  (a ++ String "/" r)%string = (b ++ String "/" r')%string ->
  a = b /\ r = r'.
Proof.
  revert b. induction a as [|x a IH]; intros [|y b] Ha Hb H; cbn in *.
  - injection H as ->. split; reflexivity.
  - injection H as <- _. cbn in Hb. discriminate.
  - injection H as -> _. cbn in Ha. discriminate.
  - injection H as -> H.
    destruct (Ascii.eqb y "/"); [discriminate |].
    destruct (IH b Ha Hb H) as [-> ->]. split; reflexivity.
Qed.

(** X3: two identities whose cluster names contain no slash get the same
    node path only if they are the same identity. *)
Theorem instancePath_injective (C N C' N' : string) :
  count_byte "/" C = 0%nat -> count_byte "/" C' = 0%nat ->
  instancePath C N = instancePath C' N' ->
  C = C' /\ N = N'.
Proof.
  intros HC HC' H. unfold instancePath in H. cbn in H.
  repeat match type of H with
         | String _ _ = String _ _ => injection H as H
         end.
  destruct (append_slash_inj _ _ _ _ HC HC' H) as [-> H'].
  split; [reflexivity |]. now injection H' as ->.
Qed.

Lemma length_append (a b : string) :
  String.length (a ++ b)%string = (String.length a + String.length b)%nat.
Proof. induction a as [|x a IH]; cbn; [reflexivity | now rewrite IH]. Qed.

(** X4: nothing in the path is escaped, so a cluster name that contains
    /instances/ shares its node path with another identity: cluster
    a/instances/b with instance c, and cluster a with instance
    b/instances/c. *)
Theorem instancePath_collision (a b c : string) :
  instancePath (a ++ "/instances/" ++ b)%string c
  = instancePath a (b ++ "/instances/" ++ c)%string
  /\ (a ++ "/instances/" ++ b)%string <> a.
Proof.
  split.
  - unfold instancePath. cbn. do 17 f_equal.
    rewrite append_assoc. cbn. reflexivity.
  - intros H. apply (f_equal String.length) in H.
    rewrite length_append in H. cbn in H. lia.
Qed.

(** ** Every run of Connect *)

Section EveryConnect.
Variable env : Env.

(** X5: whatever the collaborators answer, Connect makes its calls in the
    order of its body (session creation, host resolution, serialization,
    node creation, bootstrap fetch, start of the loop), each at most once,
    and makes no other call: it never closes a session or stops a task.
    Every call but the last one made has answered without error. *)
Theorem Connect_call_order (w : World) :
  let evs := emitted w (snd (Connect env w)) in
  ascending_from 0 (map stage evs) = true
  /\ Forall (fun ev => event_error ev = None) (removelast evs).
Proof.
  cbv zeta. destruct (Connect env w) as [r w'] eqn:H.
  destruct w as [[c ms z j0] lg]. unfold_go.
  branches H; inv_pair; read_emitted; cbn;
    (split; [reflexivity | repeat constructor]).
Qed.

(** X6: the loop is handed to its goroutine exactly when Connect returns
    nil; a run that returns an error or panics starts no loop. *)
Theorem Connect_starts_loop_iff_success (w : World) :
  count is_GoRun (emitted w (snd (Connect env w)))
  = match fst (Connect env w) with
    | Returned None => 1%nat
    | _ => 0%nat
    end.
Proof.
  destruct (Connect env w) as [r w'] eqn:H.
  destruct w as [[c ms z j0] lg]. unfold_go.
  branches H; inv_pair; read_emitted; reflexivity.
Qed.

(** X7: Connect panics only in one situation: the manager held no handle,
    [zk.Connect] answered neither a handle nor an error, and [Create] does
    not tolerate the nil receiver it is then entered through; the panic is
    the last thing logged and the manager still holds no handle.  A run
    that returns has entered no method through a nil receiver that panics
    on it. *)
Theorem Connect_panics_only_through_nil_handle (w : World) :
  let servers :=
    strings_Split (common.ZKs (common.ZK (common.Clients (cfg (mm w))))) "," in
  let timeout :=
    Duration_mul
      (common.TimeoutSeconds (common.ZK (common.Clients (cfg (mm w)))))
      Second in
  let evs := emitted w (snd (Connect env w)) in
  match fst (Connect env w) with
  | Panicked =>
      zkc (mm w) = None
      /\ zk_Connect env (List.length (log w)) servers timeout = (None, None)
      /\ nil_receiver_returns env MCreate = false
      /\ zkc (mm (snd (Connect env w))) = None
      /\ exists done, evs = done ++ [EvNilDereference MCreate]
  | Returned _ =>
      Forall (fun e => match e with
                       | EvNilDereference _ => False
                       | _ => True
                       end) evs
  end.
Proof.
  cbv zeta. destruct (Connect env w) as [r w'] eqn:H.
  destruct w as [[c ms z j0] lg]. unfold_go.
  branches H; inv_pair; read_emitted; cbn;
    try solve [repeat constructor].
  repeat split; try assumption.
  eexists [_; _; _]. reflexivity.
Qed.

(** X8: as soon as a node-create call has answered without error the task
    handle is a new job built from the manager's store, the configured
    cluster name and the session handle, whether or not the bootstrap fetch
    then succeeds; in every other run the task handle is left as it was.
    The configuration and the store are never changed. *)
Theorem Connect_task_handle (w : World) :
  let w' := snd (Connect env w) in
  schemaFetchJob (mm w')
  = (if existsb is_Create_ok (emitted w w')
     then Some (NewSchemaFetchJob (metaStore (mm w)) NewTableSchameValidator
                  (common.ClusterName (common.Cluster (cfg (mm w))))
                  (zkc (mm w')))
     else schemaFetchJob (mm w))
  /\ cfg (mm w') = cfg (mm w)
  /\ metaStore (mm w') = metaStore (mm w).
Proof.
  cbv zeta. destruct (Connect env w) as [r w'] eqn:H.
  destruct w as [[c ms z j0] lg]. unfold_go.
  branches H; inv_pair; read_emitted; cbn; repeat split; reflexivity.
Qed.

End EveryConnect.

(** ** Calls in sequence *)

Section Sequences.
Variable env : Env.

Lemma Disconnect_live (w : World) (c : Conn) (j : SchemaFetchJob) :
  zkc (mm w) = Some c -> schemaFetchJob (mm w) = Some j ->
  Disconnect env w
  = (Returned tt,
     {| mm := mm w; log := log w ++ [EvClose (Some c); EvStop (Some j)] |}).
Proof.
  destruct w as [[cf ms z j0] lg]. cbn. intros -> ->.
  unfold_go. tidy_log. reflexivity.
Qed.

Lemma Disconnect_keeps_manager (w : World) :
  mm (snd (Disconnect env w)) = mm w.
Proof.
  destruct (Disconnect env w) as [r w'] eqn:H.
  destruct w as [[c ms z j0] lg]. unfold_go.
  branches H; inv_pair; reflexivity.
Qed.

(** X9: Disconnect clears neither handle, so it is not idempotent in its
    effects: on a manager with both handles set, [n] Disconnect calls in a
    row issue Close and Stop [n] times on the same session and the same
    job, and leave the manager as it was. *)
Theorem Disconnect_repeats_teardown (w : World) (c : Conn)
    (j : SchemaFetchJob) (n : nat) :
  zkc (mm w) = Some c -> schemaFetchJob (mm w) = Some j ->
  lifecycle env (repeat CallDisconnect n) w
  = {| mm := mm w;
       log := log w
              ++ List.concat (repeat [EvClose (Some c); EvStop (Some j)] n) |}.
Proof.
  revert w. induction n as [|n IH]; intros w Hc Hj.
  - cbn. rewrite app_nil_r. now destruct w.
  - cbn [repeat lifecycle fold_left perform].
    rewrite (Disconnect_live w c j Hc Hj). cbn [snd].
    unfold lifecycle in IH. rewrite IH by assumption.
    cbn. now rewrite <- app_assoc.
Qed.

(** X10: a Connect that follows a Disconnect does not open a new session.
    Disconnect has issued Close on the handle and kept it; the Connect that
    follows makes no [zk.Connect] call, keeps that handle, and any
    node-create call it makes goes through the closed handle. *)
Theorem Connect_after_Disconnect_reuses_closed_handle (w : World) (c : Conn) :
  zkc (mm w) = Some c ->
  let w1 := snd (Disconnect env w) in
  let w2 := snd (Connect env w1) in
  In (EvClose (Some c)) (emitted w w1)
  /\ count is_zk_Connect (emitted w1 w2) = 0%nat
  /\ creates_through (Some c) (emitted w1 w2)
  /\ zkc (mm w2) = Some c.
Proof.
  intros Hc. cbv zeta.
  assert (Hc1 : zkc (mm (snd (Disconnect env w))) = Some c)
    by now rewrite Disconnect_keeps_manager.
  split.
  - clear Hc1. destruct (Disconnect env w) as [r w1] eqn:H.
    destruct w as [[cf ms z j0] lg]. cbn in Hc. subst z. unfold_go.
    branches H; inv_pair; read_emitted; cbn; auto.
  - pose proof (Connect_session_handle env (snd (Disconnect env w))) as H.
    rewrite Hc1 in H. tauto.
Qed.

(** X11: Connect does not notice that the manager is connected already.
    Two successful Connect calls in a row issue two node-create calls on
    the same path and start two loops, while the manager keeps a single
    task handle, so the Disconnect that follows issues a single Stop. *)
Theorem Connect_twice_starts_two_loops (w w1 w2 : World) :
  Connect env w = (Returned None, w1) ->
  Connect env w1 = (Returned None, w2) ->
  count is_GoRun (emitted w w2) = 2%nat
  /\ count is_Create (emitted w w2) = 2%nat
  /\ creates_at
       (instancePath (common.ClusterName (common.Cluster (cfg (mm w))))
          (common.InstanceName (common.Cluster (cfg (mm w)))))
       (emitted w w2)
  /\ (count is_Stop (emitted w2 (snd (Disconnect env w2))) <= 1)%nat.
Proof.
  intros H1 H2.
  destruct (Connect_success_log env _ _ H1)
    as (pre1 & h1 & d1 & L1 & _ & _ & Hcfg & _ & P1).
  destruct (Connect_success_log env _ _ H2)
    as (pre2 & h2 & d2 & L2 & _ & _ & _ & _ & P2).
  rewrite Hcfg in L2.
  rewrite (emitted_trans _ _ _ _ _ L1 L2),
    (emitted_app _ _ _ L1), (emitted_app _ _ _ L2).
  assert (Hpre : forall pre w0 w0',
             (pre = [] /\ zkc (mm w0) <> None /\ zkc (mm w0') = zkc (mm w0))
             \/ (zkc (mm w0) = None /\
                 exists servers timeout,
                   pre = [EvZkConnect servers timeout (zkc (mm w0')) None]) ->
             count is_GoRun pre = 0%nat /\ count is_Create pre = 0%nat
             /\ forall p, creates_at p pre).
  { intros pre w0 w0' [(-> & _) | (_ & s & t & ->)];
      repeat split; auto; intros p; repeat constructor. }
  destruct (Hpre _ _ _ P1) as (G1 & C1 & A1).
  destruct (Hpre _ _ _ P2) as (G2 & C2 & A2).
  rewrite !count_app, G1, G2, C1, C2. cbn.
  split; [reflexivity | split; [reflexivity | split]].
  - unfold creates_at. rewrite !Forall_app.
    repeat split; try apply A1; try apply A2; repeat constructor.
  - destruct (Disconnect env w2) as [r w3] eqn:HD.
    destruct w2 as [[cf ms z j0] lg]. clear - HD. unfold_go.
    branches HD; inv_pair; read_emitted; cbn; lia.
Qed.

End Sequences.

(** ** Cleaning up after a Connect that failed *)

Section Cleanup.
Variable env : Env.

(** X12: after a Connect that returned an error with the session open but
    no node created, on a manager that had no task handle, the task handle
    is still nil: Disconnect closes the session and then enters Stop
    through the nil task handle, and panics there unless Stop tolerates a
    nil receiver. *)
Theorem Disconnect_after_early_failure (w w' : World) (c : Conn) (e : error) :
  schemaFetchJob (mm w) = None ->
  Connect env w = (Returned (Some e), w') ->
  zkc (mm w') = Some c ->
  existsb is_Create_ok (emitted w w') = false ->
  Disconnect env w'
  = if nil_receiver_returns env MStop
    then (Returned tt,
          {| mm := mm w'; log := log w' ++ [EvClose (Some c); EvStop None] |})
    else (Panicked,
          {| mm := mm w';
             log := log w' ++ [EvClose (Some c); EvNilDereference MStop] |}).
Proof.
  intros Hj H Hc Hno.
  destruct w as [[cf ms z j0] lg]. cbn in Hj. subst j0. unfold_go.
  branches H; try discriminate; inv_pair; read_emitted;
    cbn in *; try discriminate;
    try (injection Hc as ->); subst; cbn;
    destruct (nil_receiver_returns env MStop); cbn; tidy_log; reflexivity.
Qed.

(** X13: after a Connect whose bootstrap fetch failed, the manager holds
    the job that failed although its loop was never started; with the
    session open, Disconnect closes the session and stops that job, and
    returns. *)
Theorem Disconnect_after_bootstrap_failure (w w' : World)
    (r : Result (option error)) (c : Conn) (j : SchemaFetchJob) (e : error) :
  Connect env w = (r, w') ->
  In (EvFetchApplySchema j true (Some e)) (emitted w w') ->
  zkc (mm w') = Some c ->
  schemaFetchJob (mm w') = Some j
  /\ count is_GoRun (emitted w w') = 0%nat
  /\ Disconnect env w'
     = (Returned tt,
        {| mm := mm w';
           log := log w' ++ [EvClose (Some c); EvStop (Some j)] |}).
Proof.
  intros H Hin Hc.
  destruct w as [[cf ms z j0] lg]. unfold_go.
  branches H; inv_pair; read_emitted; cbn in *;
    repeat (destruct Hin as [Hin | Hin]; try discriminate);
    try contradiction;
    injection Hin as <- <-; try (injection Hc as ->); subst; cbn;
    (split; [reflexivity | split; [reflexivity |]]);
    tidy_log; reflexivity.
Qed.

Lemma Connect_keeps_configuration (w : World) :
  cfg (mm (snd (Connect env w))) = cfg (mm w)
  /\ metaStore (mm (snd (Connect env w))) = metaStore (mm w).
Proof.
  destruct (Connect env w) as [r w'] eqn:H.
  destruct w as [[c ms z j0] lg]. unfold_go.
  branches H; inv_pair; cbn; split; reflexivity.
Qed.

(** X14: no sequence of Connect and Disconnect calls changes the
    configuration and the store the manager was built with by
    [NewMembershipManager], and the log it started with is a prefix of the
    log it ends with. *)
Theorem lifecycle_keeps_configuration (w : World) (calls : list Call) :
  cfg (mm (lifecycle env calls w)) = cfg (mm w)
  /\ metaStore (mm (lifecycle env calls w)) = metaStore (mm w)
  /\ exists evs, log (lifecycle env calls w) = log w ++ evs.
Proof.
  split; [| split; [| apply lifecycle_log_extends]];
    revert w; induction calls as [|k calls IH]; intros w;
    try reflexivity;
    cbn [lifecycle fold_left]; fold (lifecycle env calls (perform env k w));
    rewrite IH; destruct k; cbn [perform];
    try apply Connect_keeps_configuration;
    now rewrite Disconnect_keeps_manager.
Qed.

End Cleanup.

(** ** The further properties at work on concrete collaborators *)

Lemma instancePath_injective_witness :
  count_byte "/" "c1" = 0%nat
  /\ count_byte "/" "c1" = 0%nat
  /\ instancePath "c1" "n1" = instancePath "c1" "n1"
  /\ "c1" = "c1" /\ "n1" = "n1".
Proof.
  split; [reflexivity | split; [reflexivity | split; [reflexivity |]]].
  exact (instancePath_injective "c1" "n1" "c1" "n1" eq_refl eq_refl eq_refl).
Defined.

Lemma Disconnect_repeats_teardown_witness :
  zkc (mm connected) = Some 7%nat
  /\ schemaFetchJob (mm connected) = Some demo_job
  /\ lifecycle good_env (repeat CallDisconnect 2) connected
     = {| mm := mm connected;
          log := log connected
                 ++ List.concat
                      (repeat [EvClose (Some 7%nat); EvStop (Some demo_job)]
                         2) |}.
Proof.
  split; [reflexivity | split; [reflexivity |]].
  exact (Disconnect_repeats_teardown good_env connected 7%nat demo_job 2
           eq_refl eq_refl).
Defined.

Lemma Connect_after_Disconnect_reuses_closed_handle_witness :
  zkc (mm connected) = Some 7%nat
  /\ In (EvClose (Some 7%nat))
       (emitted connected (snd (Disconnect good_env connected)))
  /\ count is_zk_Connect
       (emitted (snd (Disconnect good_env connected))
          (snd (Connect good_env (snd (Disconnect good_env connected)))))
     = 0%nat
  /\ creates_through (Some 7%nat)
       (emitted (snd (Disconnect good_env connected))
          (snd (Connect good_env (snd (Disconnect good_env connected)))))
  /\ zkc (mm (snd (Connect good_env (snd (Disconnect good_env connected)))))
     = Some 7%nat.
Proof.
  split; [reflexivity |].
  exact (Connect_after_Disconnect_reuses_closed_handle good_env connected
           7%nat eq_refl).
Defined.

Lemma Connect_twice_starts_two_loops_witness :
  Connect good_env (fresh "n1") = (Returned None, connected)
  /\ Connect good_env connected = (Returned None, connected_twice)
  /\ count is_GoRun (emitted (fresh "n1") connected_twice) = 2%nat
  /\ count is_Create (emitted (fresh "n1") connected_twice) = 2%nat
  /\ creates_at (instancePath "c1" "n1") (emitted (fresh "n1") connected_twice)
  /\ (count is_Stop
        (emitted connected_twice (snd (Disconnect good_env connected_twice)))
      <= 1)%nat.
Proof.
  split; [reflexivity | split; [reflexivity |]].
  exact (Connect_twice_starts_two_loops good_env (fresh "n1") connected
           connected_twice eq_refl eq_refl).
Defined.

Lemma Disconnect_after_early_failure_witness :
  schemaFetchJob (mm (fresh "n1")) = None
  /\ Connect name_taken_env (fresh "n1")
     = (Returned (Some node_exists), refused)
  /\ zkc (mm refused) = Some 7%nat
  /\ existsb is_Create_ok (emitted (fresh "n1") refused) = false
  /\ Disconnect name_taken_env refused
     = (Panicked,
        {| mm := mm refused;
           log := log refused
                  ++ [EvClose (Some 7%nat); EvNilDereference MStop] |}).
Proof.
  split; [reflexivity | split; [reflexivity | split; [reflexivity |]]].
  split; [reflexivity |].
  exact (Disconnect_after_early_failure name_taken_env (fresh "n1") refused
           7%nat node_exists eq_refl eq_refl eq_refl eq_refl).
Defined.

Lemma Disconnect_after_bootstrap_failure_witness :
  Connect failing_fetch_env (fresh "n1")
  = (Returned (Some schema_store_down), half_connected)
  /\ In (EvFetchApplySchema demo_job true (Some schema_store_down))
       (emitted (fresh "n1") half_connected)
  /\ zkc (mm half_connected) = Some 7%nat
  /\ schemaFetchJob (mm half_connected) = Some demo_job
  /\ count is_GoRun (emitted (fresh "n1") half_connected) = 0%nat
  /\ Disconnect failing_fetch_env half_connected
     = (Returned tt,
        {| mm := mm half_connected;
           log := log half_connected
                  ++ [EvClose (Some 7%nat); EvStop (Some demo_job)] |}).
Proof.
  assert (Hin : In (EvFetchApplySchema demo_job true (Some schema_store_down))
                  (emitted (fresh "n1") half_connected)).
  { vm_compute. tauto. }
  split; [reflexivity | split; [exact Hin | split; [reflexivity |]]].
  exact (Disconnect_after_bootstrap_failure failing_fetch_env (fresh "n1")
           half_connected _ 7%nat demo_job schema_store_down eq_refl Hin
           eq_refl).
Defined.
